(** * Stream Pager: the [Pager] builder facade of [src/lib.rs]

    A shallow embedding of the [Pager] struct and its methods: the
    constructors (through [termcaps] and [new_with_terminal_func]), the
    builder calls that add files, the progress and configuration setters,
    and [run].  The modules the facade only calls ([file], [config],
    [progress], [event], [display]) and the external crates (termwiz) are
    kept abstract; where a claim depends on what they do, they are modelled
    from the spec and say so. *)

From Stdlib Require Import String List.
From stdpp Require Import base gmap list.
Import ListNotations.

Open Scope string_scope.

(* ------------------------------------------------------------------ *)
(** ** Errors and results ([anyhow::Result]) *)

Inductive Error : Type :=
| Error_msg (msg : string).

Inductive result (A : Type) : Type :=
| Ok (a : A)
| Err (e : Error).
Arguments Ok {A} a.
Arguments Err {A} e.

(** The [?] operator. *)
Definition bind {A B : Type} (r : result A) (k : A -> result B) : result B :=
  match r with
  | Ok a => k a
  | Err e => Err e
  end.

Notation "x <- r ;; k" := (bind r (fun x => k))
  (at level 100, r at next level, right associativity).

(* ------------------------------------------------------------------ *)
(** ** External values, kept opaque *)

(** A [impl Read + Send + 'static] byte source, known by its identity. *)
Record Stream : Type := mkStream { stream_id : nat }.

(** The sending half of the event stream, [event::EventSender]. *)
Record EventSender : Type := mkEventSender { sender_waker : nat }.

(** [event::EventStream], created from the terminal's waker. *)
Record EventStream : Type := mkEventStream { events_waker : nat }.

(** [EventStream::sender]: a clone of the channel's sending half; the
    stream itself is not changed. *)
Definition sender (events : EventStream) : EventSender :=
  mkEventSender (events_waker events).

(** [EventStream::new]. *)
Definition EventStream_new (waker : nat) : EventStream := mkEventStream waker.

(** termwiz's [Capabilities]: only the terminfo database matters here. *)
Record Capabilities : Type := mkCapabilities {
  caps_id : nat;
  terminfo_db : option nat
}.

(** termwiz's [ColorLevel] and [ProbeHints]. *)
Inductive ColorLevel : Type :=
| MonoChrome | Sixteen | TwoFiftySix | TrueColor.

Record ProbeHints : Type := mkProbeHints {
  hints_term : option string;
  hints_color_level : option ColorLevel;
  hints_mouse_reporting : option bool
}.

Definition ProbeHints_color_level (h : ProbeHints) (c : option ColorLevel)
  : ProbeHints :=
  mkProbeHints (hints_term h) c (hints_mouse_reporting h).

Definition ProbeHints_mouse_reporting (h : ProbeHints) (m : option bool)
  : ProbeHints :=
  mkProbeHints (hints_term h) (hints_color_level h) m.

(** termwiz's [SystemTerminal]: its identity, its waker and its mode. *)
Record SystemTerminal : Type := mkSystemTerminal {
  term_id : nat;
  term_raw_mode : bool
}.

Definition waker (t : SystemTerminal) : nat := term_id t.

(* ------------------------------------------------------------------ *)
(** ** Configuration ([config::Config]) *)

(** [config::InterfaceMode] is not in [src]; its variants play no role in
    the facade, which only stores the value, so it is kept abstract. *)
Record InterfaceMode : Type := mkInterfaceMode { interface_mode_tag : nat }.

Record Config : Type := mkConfig {
  interface_mode : InterfaceMode;
  scroll_past_eof : bool;
  read_ahead_lines : nat
}.

(* ------------------------------------------------------------------ *)
(** ** Files ([file::File]) *)

(** Modelled from the spec: [file::File] is not in [src].  A Source is a
    tagged variant {Disk, Stream, SubprocessOut, SubprocessErr}; a File
    pairs a Source with a stable integer id and a human title. *)
Inductive Source : Type :=
| Disk (path : string)
| StreamSource (s : Stream)
| SubprocessOut (command : string) (args : list string)
| SubprocessErr (command : string) (args : list string).

Record File : Type := mkFile {
  file_index : nat;
  file_title : string;
  file_source : Source
}.

(** [File::index]: the file's stable id. *)
Definition File_index (f : File) : nat := file_index f.

(** What the operating system lets the file constructors do: start a
    reader thread on a stream, open a path, spawn a command. *)
Record Os : Type := mkOs {
  reader_spawns : Stream -> bool;
  file_opens : string -> bool;
  command_spawns : string -> list string -> bool
}.

Definition err_spawn : Error := Error_msg "failed to start reader".
Definition err_open : Error := Error_msg "failed to open file".
Definition err_command : Error := Error_msg "failed to spawn command".

(** Modelled from the spec: [File::new_streamed] is not in [src].  It
    makes the file with the given id and title over a live stream; it
    fails when its reader task cannot be started. *)
Definition File_new_streamed (os : Os) (index : nat) (stream : Stream)
    (title : string) (_ : EventSender) : result File :=
  if reader_spawns os stream
  then Ok (mkFile index title (StreamSource stream))
  else Err err_spawn.

(** Modelled from the spec: [File::new_file] is not in [src].  It makes
    the file with the given id over a disk file, titled by its path; it
    fails when the path cannot be opened. *)
Definition File_new_file (os : Os) (index : nat) (filename : string)
    (_ : EventSender) : result File :=
  if file_opens os filename
  then Ok (mkFile index filename (Disk filename))
  else Err err_open.

(** Modelled from the spec: [File::new_command] is not in [src].  It
    spawns the command and returns the linked output/error pair; the
    output file gets the given id and the error file, added right after
    it, the next one. *)
Definition File_new_command (os : Os) (index : nat) (command : string)
    (args : list string) (title : string) (_ : EventSender)
    : result (File * File) :=
  if command_spawns os command args
  then Ok (mkFile index title (SubprocessOut command args),
           mkFile (S index) title (SubprocessErr command args))
  else Err err_command.

(* ------------------------------------------------------------------ *)
(** ** Progress ([progress::Progress]) *)

Record Progress : Type := mkProgress {
  progress_stream : Stream;
  progress_sender : EventSender
}.

(** [Progress::new]. *)
Definition Progress_new (stream : Stream) (event_sender : EventSender)
  : Progress :=
  mkProgress stream event_sender.

(* ------------------------------------------------------------------ *)
(** ** The pager *)

(** [struct Pager]; the [VecMap<File>] of error files is a [gmap nat File]. *)
Record Pager : Type := mkPager {
  term : SystemTerminal;
  caps : Capabilities;
  events : EventStream;
  files : list File;
  error_files : gmap nat File;
  progress : option Progress;
  config : Config
}.

(** [self.files.last()]. *)
Definition last_file (fs : list File) : option File := last fs.

(** [Pager::add_output_stream]. *)
Definition add_output_stream (os : Os) (self : Pager) (stream : Stream)
    (title : string) : result Pager :=
  let index := length (files self) in
  let event_sender := sender (events self) in
  file <- File_new_streamed os index stream title event_sender ;;
  Ok {| term := term self; caps := caps self; events := events self;
        files := files self ++ [file];
        error_files := error_files self;
        progress := progress self; config := config self |}.

(** [Pager::add_error_stream]. *)
Definition add_error_stream (os : Os) (self : Pager) (stream : Stream)
    (title : string) : result Pager :=
  let index := length (files self) in
  let event_sender := sender (events self) in
  file <- File_new_streamed os index stream title event_sender ;;
  let error_files' :=
    match last_file (files self) with
    | Some out_file => <[File_index out_file := file]> (error_files self)
    | None => error_files self
    end in
  Ok {| term := term self; caps := caps self; events := events self;
        files := files self ++ [file];
        error_files := error_files';
        progress := progress self; config := config self |}.

(** [Pager::add_output_file]. *)
Definition add_output_file (os : Os) (self : Pager) (filename : string)
  : result Pager :=
  let index := length (files self) in
  let event_sender := sender (events self) in
  file <- File_new_file os index filename event_sender ;;
  Ok {| term := term self; caps := caps self; events := events self;
        files := files self ++ [file];
        error_files := error_files self;
        progress := progress self; config := config self |}.

(** [Pager::add_subprocess]. *)
Definition add_subprocess (os : Os) (self : Pager) (command : string)
    (args : list string) (title : string) : result Pager :=
  let index := length (files self) in
  let event_sender := sender (events self) in
  pair <- File_new_command os index command args title event_sender ;;
  let '(out_file, err_file) := pair in
  Ok {| term := term self; caps := caps self; events := events self;
        files := (files self ++ [out_file]) ++ [err_file];
        error_files := <[index := err_file]> (error_files self);
        progress := progress self; config := config self |}.

(** [Pager::set_progress_stream]. *)
Definition set_progress_stream (self : Pager) (stream : Stream) : Pager :=
  let event_sender := sender (events self) in
  {| term := term self; caps := caps self; events := events self;
     files := files self; error_files := error_files self;
     progress := Some (Progress_new stream event_sender);
     config := config self |}.

Definition with_config (self : Pager) (c : Config) : Pager :=
  {| term := term self; caps := caps self; events := events self;
     files := files self; error_files := error_files self;
     progress := progress self; config := c |}.

(** [Pager::set_interface_mode]. *)
Definition set_interface_mode (self : Pager) (value : InterfaceMode) : Pager :=
  let c := config self in
  with_config self (mkConfig value (scroll_past_eof c) (read_ahead_lines c)).

(** [Pager::set_scroll_past_eof]. *)
Definition set_scroll_past_eof (self : Pager) (value : bool) : Pager :=
  let c := config self in
  with_config self (mkConfig (interface_mode c) value (read_ahead_lines c)).

(** [Pager::set_read_ahead_lines]. *)
Definition set_read_ahead_lines (self : Pager) (lines : nat) : Pager :=
  let c := config self in
  with_config self (mkConfig (interface_mode c) (scroll_past_eof c) lines).

(* ------------------------------------------------------------------ *)
(** ** Construction ([termcaps], [Pager::new_*]) *)

(** What the environment and termwiz provide to the constructors:
    [ProbeHints::new_from_env], [Capabilities::new_with_hints],
    [cfg!(unix)], the three [SystemTerminal] constructors,
    [Terminal::set_raw_mode] (returning the terminal in raw mode) and
    [Config::from_env]. *)
Record TermEnv : Type := mkTermEnv {
  ProbeHints_new_from_env : ProbeHints;
  Capabilities_new_with_hints : ProbeHints -> result Capabilities;
  cfg_unix : bool;
  SystemTerminal_new : Capabilities -> result SystemTerminal;
  SystemTerminal_new_from_stdio : Capabilities -> result SystemTerminal;
  SystemTerminal_new_with : Capabilities -> nat -> nat -> result SystemTerminal;
  set_raw_mode : SystemTerminal -> result SystemTerminal;
  Config_from_env : Config
}.

(** [Option::is_none]. *)
Definition option_is_none {A : Type} (o : option A) : bool :=
  match o with
  | None => true
  | Some _ => false
  end.

Definition err_terminfo : Error :=
  Error_msg "terminfo database not found (is $TERM correct?)".

(** [termcaps]. *)
Definition termcaps_hints (env : TermEnv) : ProbeHints :=
  ProbeHints_mouse_reporting
    (ProbeHints_color_level (ProbeHints_new_from_env env) (Some TrueColor))
    (Some false).

Definition termcaps (env : TermEnv) : result Capabilities :=
  let hints := termcaps_hints env in
  caps <- Capabilities_new_with_hints env hints ;;
  if cfg_unix env && option_is_none (terminfo_db caps)
  then Err err_terminfo
  else Ok caps.

(** [Pager::new_with_terminal_func]. *)
Definition new_with_terminal_func (env : TermEnv)
    (create_term : Capabilities -> result SystemTerminal) : result Pager :=
  caps <- termcaps env ;;
  term0 <- create_term caps ;;
  term <- set_raw_mode env term0 ;;
  let events := EventStream_new (waker term) in
  let files := [] in
  let error_files := ∅ in
  let progress := None in
  let config := Config_from_env env in
  Ok {| term := term; caps := caps; events := events; files := files;
        error_files := error_files; progress := progress; config := config |}.

(** [Pager::new_using_system_terminal]. *)
Definition new_using_system_terminal (env : TermEnv) : result Pager :=
  new_with_terminal_func env (fun caps => SystemTerminal_new env caps).

(** [Pager::new_using_stdio]. *)
Definition new_using_stdio (env : TermEnv) : result Pager :=
  new_with_terminal_func env (fun caps => SystemTerminal_new_from_stdio env caps).

(** [Pager::new_with_input_output], the input and output given by their
    raw descriptors. *)
Definition new_with_input_output (env : TermEnv) (input output : nat)
  : result Pager :=
  new_with_terminal_func env
    (fun caps => SystemTerminal_new_with env caps input output).

(* ------------------------------------------------------------------ *)
(** ** Running ([Pager::run]) *)

(** The core's entry point [display::start], which is not in [src]: it is
    a parameter of [run]. *)
Definition DisplayStart : Type :=
  SystemTerminal -> Capabilities -> EventStream -> list File ->
  gmap nat File -> option Progress -> Config -> result unit.

(** [Pager::run]. *)
Definition run (start : DisplayStart) (self : Pager) : result unit :=
  start (term self) (caps self) (events self) (files self)
        (error_files self) (progress self) (config self).

(* ------------------------------------------------------------------ *)
(** ** Sequences of builder calls *)

Inductive BuilderCall : Type :=
| AddOutputStream (stream : Stream) (title : string)
| AddErrorStream (stream : Stream) (title : string)
| AddOutputFile (filename : string)
| AddSubprocess (command : string) (args : list string) (title : string)
| SetProgressStream (stream : Stream)
| SetInterfaceMode (value : InterfaceMode)
| SetScrollPastEof (value : bool)
| SetReadAheadLines (lines : nat).

Definition builder_step (os : Os) (self : Pager) (c : BuilderCall)
  : result Pager :=
  match c with
  | AddOutputStream s t => add_output_stream os self s t
  | AddErrorStream s t => add_error_stream os self s t
  | AddOutputFile n => add_output_file os self n
  | AddSubprocess cmd args t => add_subprocess os self cmd args t
  | SetProgressStream s => Ok (set_progress_stream self s)
  | SetInterfaceMode v => Ok (set_interface_mode self v)
  | SetScrollPastEof v => Ok (set_scroll_past_eof self v)
  | SetReadAheadLines n => Ok (set_read_ahead_lines self n)
  end.

(** A chain of builder calls, each one's [?] propagating its error. *)
Fixpoint build (os : Os) (self : Pager) (cs : list BuilderCall)
  : result Pager :=
  match cs with
  | [] => Ok self
  | c :: cs' => self' <- builder_step os self c ;; build os self' cs'
  end.

(** Construct a pager, make the builder calls, then run it. *)
Definition new_build_run (env : TermEnv) (os : Os) (cs : list BuilderCall)
    (start : DisplayStart) : result unit :=
  p <- new_using_system_terminal env ;;
  p' <- build os p cs ;;
  run start p'.

(** Every file's id is its position in the file list. *)
Definition ids_are_positions (fs : list File) : Prop :=
  ∀ k f, fs !! k = Some f → file_index f = k.

(** The pager fields other than the configuration. *)
Definition same_but_config (p q : Pager) : Prop :=
  term q = term p ∧ caps q = caps p ∧ events q = events p ∧
  files q = files p ∧ error_files q = error_files p ∧
  progress q = progress p.

(** The pager fields other than the progress handle. *)
Definition same_but_progress (p q : Pager) : Prop :=
  term q = term p ∧ caps q = caps p ∧ events q = events p ∧
  files q = files p ∧ error_files q = error_files p ∧
  config q = config p.

(** Concrete values for examples. *)
Definition os_ok : Os := mkOs (fun _ => true) (fun _ => true) (fun _ _ => true).

Definition config0 : Config := mkConfig (mkInterfaceMode 0) false 0.

Definition pager0 : Pager :=
  mkPager (mkSystemTerminal 1 true) (mkCapabilities 0 (Some 0))
          (mkEventStream 1) [] ∅ None config0.

Definition s1 : Stream := mkStream 1.
Definition s2 : Stream := mkStream 2.
Definition s3 : Stream := mkStream 3.

Definition out1 : File := mkFile 0 "out" (StreamSource s1).
Definition err1 : File := mkFile 1 "err" (StreamSource s2).

(** [pager0] after [add_output_stream s1 "out"]. *)
Definition pager_out : Pager :=
  mkPager (mkSystemTerminal 1 true) (mkCapabilities 0 (Some 0))
          (mkEventStream 1) [out1] ∅ None config0.

(** [pager_out] after [add_error_stream s2 "err"]. *)
Definition pager_out_err : Pager :=
  mkPager (mkSystemTerminal 1 true) (mkCapabilities 0 (Some 0))
          (mkEventStream 1) [out1; err1] {[0 := err1]} None config0.

(** An environment whose terminal has no terminfo database. *)
Definition env_noterm : TermEnv :=
  mkTermEnv (mkProbeHints (Some "dumb") None None)
            (fun _ => Ok (mkCapabilities 0 None))
            true
            (fun _ => Ok (mkSystemTerminal 1 false))
            (fun _ => Ok (mkSystemTerminal 2 false))
            (fun _ i _ => Ok (mkSystemTerminal i false))
            (fun t => Ok (mkSystemTerminal (term_id t) true))
            config0.

(** An environment where every step of construction succeeds. *)
Definition env_ok : TermEnv :=
  mkTermEnv (mkProbeHints (Some "xterm") None None)
            (fun _ => Ok (mkCapabilities 0 (Some 7)))
            true
            (fun _ => Ok (mkSystemTerminal 1 false))
            (fun _ => Ok (mkSystemTerminal 2 false))
            (fun _ i _ => Ok (mkSystemTerminal i false))
            (fun t => Ok (mkSystemTerminal (term_id t) true))
            config0.

(** A non-unix environment whose terminal has no terminfo database. *)
Definition env_nounix : TermEnv :=
  mkTermEnv (mkProbeHints None None None)
            (fun _ => Ok (mkCapabilities 0 None))
            false
            (fun _ => Ok (mkSystemTerminal 1 false))
            (fun _ => Ok (mkSystemTerminal 2 false))
            (fun _ i _ => Ok (mkSystemTerminal i false))
            (fun t => Ok (mkSystemTerminal (term_id t) true))
            config0.

(** Every error file in the error-file mapping under key [k] is the file
    displayed right after file [k]. *)
Definition error_files_follow (p : Pager) : Prop :=
  ∀ k e, error_files p !! k = Some e → files p !! S k = Some e.

(** How many files a builder call appends to the file list. *)
Definition files_added (c : BuilderCall) : nat :=
  match c with
  | AddOutputStream _ _ | AddErrorStream _ _ | AddOutputFile _ => 1
  | AddSubprocess _ _ _ => 2
  | SetProgressStream _ | SetInterfaceMode _ | SetScrollPastEof _
  | SetReadAheadLines _ => 0
  end.

(** The environment with other probe hints from the environment. *)
Definition with_probe_hints (env : TermEnv) (h : ProbeHints) : TermEnv :=
  mkTermEnv h (Capabilities_new_with_hints env) (cfg_unix env)
            (SystemTerminal_new env) (SystemTerminal_new_from_stdio env)
            (SystemTerminal_new_with env) (set_raw_mode env)
            (Config_from_env env).

(* ================================================================== *)
(** * Properties *)

Open Scope list_scope.

(** ** Inversion of the file-adding calls *)

Ltac inv_ok :=
  repeat match goal with
  | H : context [if ?b then _ else _] |- _ => destruct b eqn:?
  | H : Ok _ = Ok _ |- _ => injection H as <-
  | H : Err _ = Ok _ |- _ => discriminate H
  end.

Lemma add_output_stream_Ok os p s t p' :
  add_output_stream os p s t = Ok p' →
  reader_spawns os s = true ∧
  p' = {| term := term p; caps := caps p; events := events p;
          files := files p ++ [mkFile (length (files p)) t (StreamSource s)];
          error_files := error_files p;
          progress := progress p; config := config p |}.
Proof.
  unfold add_output_stream, File_new_streamed, bind. intros H.
  inv_ok. auto.
Qed.

Lemma add_error_stream_Ok os p s t p' :
  add_error_stream os p s t = Ok p' →
  let ef := mkFile (length (files p)) t (StreamSource s) in
  reader_spawns os s = true ∧
  p' = {| term := term p; caps := caps p; events := events p;
          files := files p ++ [ef];
          error_files :=
            match last (files p) with
            | Some out_file => <[File_index out_file := ef]> (error_files p)
            | None => error_files p
            end;
          progress := progress p; config := config p |}.
Proof.
  unfold add_error_stream, File_new_streamed, last_file, bind. intros H.
  inv_ok. auto.
Qed.

Lemma add_output_file_Ok os p n p' :
  add_output_file os p n = Ok p' →
  file_opens os n = true ∧
  p' = {| term := term p; caps := caps p; events := events p;
          files := files p ++ [mkFile (length (files p)) n (Disk n)];
          error_files := error_files p;
          progress := progress p; config := config p |}.
Proof.
  unfold add_output_file, File_new_file, bind. intros H.
  inv_ok. auto.
Qed.

Lemma add_subprocess_Ok os p cmd args t p' :
  add_subprocess os p cmd args t = Ok p' →
  let n := length (files p) in
  let o := mkFile n t (SubprocessOut cmd args) in
  let e := mkFile (S n) t (SubprocessErr cmd args) in
  command_spawns os cmd args = true ∧
  p' = {| term := term p; caps := caps p; events := events p;
          files := (files p ++ [o]) ++ [e];
          error_files := <[n := e]> (error_files p);
          progress := progress p; config := config p |}.
Proof.
  unfold add_subprocess, File_new_command, bind. intros H.
  inv_ok. auto.
Qed.

Lemma last_snoc {A} (l : list A) (x : A) : last (l ++ [x]) = Some x.
Proof. induction l as [|a l IH]; [done|]. destruct l; simpl in *; auto. Qed.

(** ** C1 *)

(** C1: when the most recently added file is the output file with id [i],
    a successful [add_error_stream] records the new error file (the one it
    appends) in the error-file mapping under the key [i]. *)
Theorem add_error_stream_records_under_last_output
    (os : Os) (p p' : Pager) (s : Stream) (t : string) (out : File) (i : nat)
    (Hlast : last (files p) = Some out) (Hid : File_index out = i)
    (Hok : add_error_stream os p s t = Ok p') :
  ∃ ef, last (files p') = Some ef ∧ error_files p' !! i = Some ef.
Proof.
  apply add_error_stream_Ok in Hok as [_ ->]. simpl.
  rewrite Hlast, Hid. eexists. split; [apply last_snoc|].
  apply lookup_insert_eq.
Qed.

Lemma add_error_stream_records_under_last_output_witness :
  last (files pager_out) = Some out1 ∧ File_index out1 = 0 ∧
  add_error_stream os_ok pager_out s2 "err" = Ok pager_out_err ∧
  ∃ ef, last (files pager_out_err) = Some ef ∧
        error_files pager_out_err !! 0 = Some ef.
Proof.
  split; [reflexivity|]. split; [reflexivity|]. split; [vm_compute; reflexivity|].
  apply (add_error_stream_records_under_last_output
           os_ok pager_out pager_out_err s2 "err" out1 0);
    [reflexivity | reflexivity | vm_compute; reflexivity].
Defined.

(** ** C2 *)

(** C2: [add_error_stream] is documented to attach the error stream to
    the previously added output stream, but it keys the new error file by
    [self.files.last()].  After [add_output_stream], [add_error_stream],
    [add_error_stream], the second error file is keyed by id 1, the id of
    the first error file, and not by id 0, the most recent output, which
    keeps the first error file. *)
Lemma add_error_stream_twice_keys_error_file :
  match build os_ok pager0
          [AddOutputStream s1 "out"; AddErrorStream s2 "err";
           AddErrorStream s3 "err2"] with
  | Ok p =>
      files p !! 1 = Some (mkFile 1 "err" (StreamSource s2)) ∧
      error_files p !! 1 = Some (mkFile 2 "err2" (StreamSource s3)) ∧
      error_files p !! 0 = Some (mkFile 1 "err" (StreamSource s2))
  | Err _ => False
  end.
Proof. vm_compute. repeat split. Qed.


(** ** C3 *)

(** C3: a successful [add_subprocess] on a pager holding [n] files
    appends exactly two files, the subprocess output file (id [n]) at
    position [n] and its error file at position [n+1], and records the
    error file in the error-file mapping under [n]. *)
Theorem add_subprocess_appends_linked_pair
    (os : Os) (p p' : Pager) (cmd : string) (args : list string) (t : string)
    (Hok : add_subprocess os p cmd args t = Ok p') :
  let n := length (files p) in
  ∃ o e, files p' = files p ++ [o; e] ∧
         files p' !! n = Some o ∧ files p' !! (n + 1) = Some e ∧
         File_index o = n ∧
         error_files p' = <[n := e]> (error_files p) ∧
         error_files p' !! n = Some e.
Proof.
  apply add_subprocess_Ok in Hok as [_ ->]. simpl.
  eexists _, _. rewrite <- app_assoc. simpl.
  split; [reflexivity|].
  split; [rewrite lookup_app_r, Nat.sub_diag by lia; reflexivity|].
  split; [rewrite lookup_app_r by lia;
          replace (length (files p) + 1 - length (files p)) with 1 by lia;
          reflexivity|].
  split; [reflexivity|]. split; [reflexivity|].
  apply lookup_insert_eq.
Qed.

Lemma add_subprocess_appends_linked_pair_witness :
  ∃ p', add_subprocess os_ok pager_out "make" ["all"] "build" = Ok p' ∧
  let n := length (files pager_out) in
  ∃ o e, files p' = files pager_out ++ [o; e] ∧
         files p' !! n = Some o ∧ files p' !! (n + 1) = Some e ∧
         File_index o = n ∧
         error_files p' = <[n := e]> (error_files pager_out) ∧
         error_files p' !! n = Some e.
Proof.
  eexists. split; [vm_compute; reflexivity|].
  apply (add_subprocess_appends_linked_pair os_ok pager_out _ "make" ["all"] "build").
  vm_compute; reflexivity.
Defined.

(** ** C8 *)

(** C8 fails on an empty pager: [add_error_stream] appends the error file
    as file 0 but the error-file mapping stays empty. *)
Lemma add_error_stream_first_not_recorded :
  match add_error_stream os_ok pager0 s1 "err" with
  | Ok p => files p = [mkFile 0 "err" (StreamSource s1)] ∧
            ∀ k, error_files p !! k = None
  | Err _ => False
  end.
Proof. vm_compute. split; [reflexivity|]. intros k. reflexivity. Qed.

(** C8 (as amended): a successful [add_error_stream] appends the error
    file at the end of the file list with the fresh id [length files];
    when the list was non-empty it is also recorded in the error-file
    mapping, and when the list was empty it is only appended, the mapping
    staying as it was. *)
Theorem add_error_stream_appends_error_file
    (os : Os) (p p' : Pager) (s : Stream) (t : string)
    (Hok : add_error_stream os p s t = Ok p') :
  ∃ ef, files p' = files p ++ [ef] ∧ File_index ef = length (files p) ∧
        (files p ≠ [] → ∃ k, error_files p' !! k = Some ef) ∧
        (files p = [] → error_files p' = error_files p).
Proof.
  apply add_error_stream_Ok in Hok as [_ ->]. simpl.
  eexists. split; [reflexivity|]. split; [reflexivity|]. split.
  - intros Hne. destruct (last (files p)) eqn:Hl.
    + eexists. apply lookup_insert_eq.
    + destruct (files p) as [|a l] using rev_ind; [done|].
      rewrite last_snoc in Hl. discriminate.
  - intros Hnil. rewrite Hnil. reflexivity.
Qed.

Lemma add_error_stream_appends_error_file_witness :
  add_error_stream os_ok pager_out s2 "err" = Ok pager_out_err ∧
  ∃ ef, files pager_out_err = files pager_out ++ [ef] ∧
        File_index ef = length (files pager_out) ∧
        (files pager_out ≠ [] → ∃ k, error_files pager_out_err !! k = Some ef) ∧
        (files pager_out = [] → error_files pager_out_err = error_files pager_out).
Proof.
  split; [vm_compute; reflexivity|].
  apply (add_error_stream_appends_error_file os_ok pager_out pager_out_err s2 "err").
  vm_compute; reflexivity.
Defined.

(** ** C9 *)

(** C9: on a pager with no files, [add_error_stream] is not refused for
    the lack of an output file: once its reader starts it returns [Ok],
    the error file is file 0 and the error-file mapping is unchanged; its
    only failure is the reader failing to start, as for every stream. *)
Theorem add_error_stream_on_empty_pager
    (os : Os) (p : Pager) (s : Stream) (t : string)
    (Hempty : files p = []) :
  (reader_spawns os s = true →
   ∃ p', add_error_stream os p s t = Ok p' ∧
         files p' = [mkFile 0 t (StreamSource s)] ∧
         error_files p' = error_files p) ∧
  (∀ e, add_error_stream os p s t = Err e →
        reader_spawns os s = false ∧ e = err_spawn).
Proof.
  unfold add_error_stream, File_new_streamed, last_file, bind.
  rewrite Hempty. simpl. split.
  - intros ->. eexists. split; [reflexivity|]. done.
  - intros e. destruct (reader_spawns os s); [discriminate|].
    intros H. injection H as <-. done.
Qed.

Lemma add_error_stream_on_empty_pager_witness :
  files pager0 = [] ∧
  (reader_spawns os_ok s1 = true →
   ∃ p', add_error_stream os_ok pager0 s1 "err" = Ok p' ∧
         files p' = [mkFile 0 "err" (StreamSource s1)] ∧
         error_files p' = error_files pager0) ∧
  (∀ e, add_error_stream os_ok pager0 s1 "err" = Err e →
        reader_spawns os_ok s1 = false ∧ e = err_spawn).
Proof.
  split; [reflexivity|].
  apply (add_error_stream_on_empty_pager os_ok pager0 s1 "err").
  reflexivity.
Defined.

(** ** Builder calls only grow the file list *)

Lemma ids_are_positions_snoc (l : list File) (f : File) :
  ids_are_positions l → file_index f = length l →
  ids_are_positions (l ++ [f]).
Proof.
  intros Hl Hf k g Hk. apply lookup_snoc_Some in Hk as [[_ Hk] | [-> <-]].
  - by apply Hl.
  - done.
Qed.

Lemma builder_step_files (os : Os) (p p' : Pager) (c : BuilderCall) :
  ids_are_positions (files p) → builder_step os p c = Ok p' →
  ids_are_positions (files p') ∧ files p `prefix_of` files p'.
Proof.
  intros Hinv Hstep. destruct c; simpl in Hstep.
  - apply add_output_stream_Ok in Hstep as [_ ->]. simpl.
    split; [by apply ids_are_positions_snoc | by eexists].
  - apply add_error_stream_Ok in Hstep as [_ ->]. simpl.
    split; [by apply ids_are_positions_snoc | by eexists].
  - apply add_output_file_Ok in Hstep as [_ ->]. simpl.
    split; [by apply ids_are_positions_snoc | by eexists].
  - apply add_subprocess_Ok in Hstep as [_ ->]. simpl.
    split; [|eexists; by rewrite <- app_assoc].
    apply ids_are_positions_snoc; [by apply ids_are_positions_snoc|].
    rewrite length_app. simpl. lia.
  - injection Hstep as <-. split; [done | by exists []; rewrite app_nil_r].
  - injection Hstep as <-. split; [done | by exists []; rewrite app_nil_r].
  - injection Hstep as <-. split; [done | by exists []; rewrite app_nil_r].
  - injection Hstep as <-. split; [done | by exists []; rewrite app_nil_r].
Qed.

Lemma build_files (os : Os) (cs : list BuilderCall) :
  ∀ p p', ids_are_positions (files p) → build os p cs = Ok p' →
  ids_are_positions (files p') ∧ files p `prefix_of` files p'.
Proof.
  induction cs as [|c cs IH]; intros p p' Hinv Hb; simpl in Hb.
  - injection Hb as <-. split; [done | by exists []; rewrite app_nil_r].
  - destruct (builder_step os p c) as [q|e] eqn:Hs; [|discriminate].
    simpl in Hb. destruct (builder_step_files os p q c Hinv Hs) as [Hq Hpq].
    destruct (IH q p' Hq Hb) as [Hp' Hqp']. split; [done|].
    by transitivity (files q).
Qed.

(** ** C5 *)

(** C5: starting from a pager whose files have their positions as ids
    (the constructors start with no files), after any chain of successful
    builder calls every file's id is still its position, ids increase with
    the order of addition, and the files present before, ids included, are
    kept unchanged as a prefix of the new list. *)
Theorem builder_calls_ids_are_positions
    (os : Os) (p p' : Pager) (cs : list BuilderCall)
    (Hinv : ids_are_positions (files p)) (Hok : build os p cs = Ok p') :
  ids_are_positions (files p') ∧
  (∀ i j fi fj, files p' !! i = Some fi → files p' !! j = Some fj →
                i < j → file_index fi < file_index fj) ∧
  files p `prefix_of` files p'.
Proof.
  destruct (build_files os cs p p' Hinv Hok) as [Hp' Hpre].
  split; [done|]. split; [|done].
  intros i j fi fj Hi Hj Hij. rewrite (Hp' i fi Hi), (Hp' j fj Hj). done.
Qed.

Lemma builder_calls_ids_are_positions_witness :
  ∃ p', build os_ok pager0
          [AddOutputStream s1 "out"; AddSubprocess "make" [] "build";
           AddErrorStream s2 "err"; AddOutputFile "notes.txt"] = Ok p' ∧
  ids_are_positions (files p') ∧
  (∀ i j fi fj, files p' !! i = Some fi → files p' !! j = Some fj →
                i < j → file_index fi < file_index fj) ∧
  files pager0 `prefix_of` files p'.
Proof.
  eexists. split; [vm_compute; reflexivity|].
  apply (builder_calls_ids_are_positions os_ok pager0 _
           [AddOutputStream s1 "out"; AddSubprocess "make" [] "build";
            AddErrorStream s2 "err"; AddOutputFile "notes.txt"]).
  - intros k f H. cbv in H. discriminate.
  - vm_compute. reflexivity.
Defined.

(** ** C4 *)

(** C4: when terminal capability negotiation ([termcaps]) fails, every
    constructor returns that error, so no pager exists and [display::start]
    is never reached, whatever it does; on unix a missing terminfo database
    is such a failure; when negotiation succeeds, construction goes on to
    create the terminal with the negotiated capabilities. *)
Theorem constructors_fail_when_termcaps_fails (env : TermEnv) :
  (∀ e, termcaps env = Err e →
     new_using_system_terminal env = Err e ∧
     new_using_stdio env = Err e ∧
     (∀ input output, new_with_input_output env input output = Err e) ∧
     (∀ os cs start, new_build_run env os cs start = Err e)) ∧
  (∀ c, cfg_unix env = true →
     Capabilities_new_with_hints env (termcaps_hints env) = Ok c →
     terminfo_db c = None →
     termcaps env = Err err_terminfo) ∧
  (∀ c create_term, termcaps env = Ok c →
     new_with_terminal_func env create_term =
       (term0 <- create_term c ;;
        t <- set_raw_mode env term0 ;;
        Ok {| term := t; caps := c; events := EventStream_new (waker t);
              files := []; error_files := ∅; progress := None;
              config := Config_from_env env |})).
Proof.
  split; [|split].
  - intros e He.
    unfold new_build_run, new_using_system_terminal, new_using_stdio,
      new_with_input_output, new_with_terminal_func.
    rewrite He. simpl. auto.
  - intros c Hunix Hc Hdb. unfold termcaps. simpl.
    rewrite Hc. simpl. rewrite Hunix, Hdb. reflexivity.
  - intros c create_term Hc. unfold new_with_terminal_func.
    rewrite Hc. reflexivity.
Qed.

Lemma constructors_fail_when_termcaps_fails_witness :
  termcaps env_noterm = Err err_terminfo ∧
  new_using_system_terminal env_noterm = Err err_terminfo ∧
  new_using_stdio env_noterm = Err err_terminfo ∧
  (∀ input output, new_with_input_output env_noterm input output = Err err_terminfo) ∧
  (∀ os cs start, new_build_run env_noterm os cs start = Err err_terminfo).
Proof.
  destruct (constructors_fail_when_termcaps_fails env_noterm) as [Hfail [Hdb _]].
  assert (He : termcaps env_noterm = Err err_terminfo)
    by (apply (Hdb (mkCapabilities 0 None)); reflexivity).
  split; [exact He|]. apply (Hfail err_terminfo He).
Defined.

(** ** C6 *)

Lemma builder_step_handles (os : Os) (p p' : Pager) (c : BuilderCall) :
  builder_step os p c = Ok p' →
  term p' = term p ∧ caps p' = caps p ∧ events p' = events p.
Proof.
  intros Hstep. destruct c; simpl in Hstep.
  - by apply add_output_stream_Ok in Hstep as [_ ->].
  - by apply add_error_stream_Ok in Hstep as [_ ->].
  - by apply add_output_file_Ok in Hstep as [_ ->].
  - by apply add_subprocess_Ok in Hstep as [_ ->].
  - by injection Hstep as <-.
  - by injection Hstep as <-.
  - by injection Hstep as <-.
  - by injection Hstep as <-.
Qed.

Lemma build_handles (os : Os) (cs : list BuilderCall) :
  ∀ p p', build os p cs = Ok p' →
  term p' = term p ∧ caps p' = caps p ∧ events p' = events p.
Proof.
  induction cs as [|c cs IH]; intros p p' Hb; simpl in Hb.
  - by injection Hb as <-.
  - destruct (builder_step os p c) as [q|e] eqn:Hs; [|discriminate].
    simpl in Hb. destruct (builder_step_handles os p q c Hs) as (? & ? & ?).
    destruct (IH q p' Hb) as (? & ? & ?). split_and!; congruence.
Qed.

(** C6: running a pager built by a chain of builder calls makes one call
    of the core's entry point [display::start], with the terminal,
    capabilities and event stream the constructor made, untouched by the
    builder calls, and the file list, error-file mapping, progress handle
    and configuration those calls built. *)
Theorem run_hands_built_state_to_core
    (os : Os) (p p' : Pager) (cs : list BuilderCall) (start : DisplayStart)
    (Hok : build os p cs = Ok p') :
  run start p' =
    start (term p) (caps p) (events p) (files p') (error_files p')
          (progress p') (config p').
Proof.
  destruct (build_handles os cs p p' Hok) as (Ht & Hc & He).
  unfold run. rewrite Ht, Hc, He. reflexivity.
Qed.

Lemma run_hands_built_state_to_core_witness :
  build os_ok pager0 [AddOutputStream s1 "out"; AddErrorStream s2 "err"]
    = Ok pager_out_err ∧
  run (fun _ _ _ _ _ _ _ => Ok tt) pager_out_err =
    (fun _ _ _ _ _ _ _ => Ok tt) (term pager0) (caps pager0) (events pager0)
      (files pager_out_err) (error_files pager_out_err)
      (progress pager_out_err) (config pager_out_err).
Proof.
  split; [vm_compute; reflexivity|].
  apply (run_hands_built_state_to_core os_ok pager0 pager_out_err
           [AddOutputStream s1 "out"; AddErrorStream s2 "err"]).
  vm_compute. reflexivity.
Defined.

(** ** C7 *)



(** C7: each configuration setter sets its own field to the given value
    and leaves the two other configuration fields, the file list, the
    error-file mapping and the progress handle unchanged. *)
Theorem config_setters_update_one_field
    (p : Pager) (m : InterfaceMode) (b : bool) (n : nat) :
  (interface_mode (config (set_interface_mode p m)) = m ∧
   scroll_past_eof (config (set_interface_mode p m)) = scroll_past_eof (config p) ∧
   read_ahead_lines (config (set_interface_mode p m)) = read_ahead_lines (config p) ∧
   same_but_config p (set_interface_mode p m)) ∧
  (scroll_past_eof (config (set_scroll_past_eof p b)) = b ∧
   interface_mode (config (set_scroll_past_eof p b)) = interface_mode (config p) ∧
   read_ahead_lines (config (set_scroll_past_eof p b)) = read_ahead_lines (config p) ∧
   same_but_config p (set_scroll_past_eof p b)) ∧
  (read_ahead_lines (config (set_read_ahead_lines p n)) = n ∧
   interface_mode (config (set_read_ahead_lines p n)) = interface_mode (config p) ∧
   scroll_past_eof (config (set_read_ahead_lines p n)) = scroll_past_eof (config p) ∧
   same_but_config p (set_read_ahead_lines p n)).
Proof.
  unfold same_but_config. split_and!; reflexivity.
Qed.

(** ** C10 *)

(** C10: [set_progress_stream] sets the progress handle to a progress
    reader over the given stream, and a later call replaces the earlier
    one: the pager is then the same as if only the later call was made. *)
Theorem set_progress_stream_replaces (p : Pager) (s s' : Stream) :
  progress (set_progress_stream p s) = Some (Progress_new s (sender (events p))) ∧
  same_but_progress p (set_progress_stream p s) ∧
  set_progress_stream (set_progress_stream p s') s = set_progress_stream p s.
Proof.
  unfold same_but_progress. split_and!; reflexivity.
Qed.

(* ================================================================== *)
(** * Further properties of the facade *)

(** ** The error-file mapping and the file list *)

Lemma last_is_at_pred_length (l : list File) (f : File) :
  ids_are_positions l → last l = Some f → File_index f = pred (length l).
Proof.
  intros Hl Hf. rewrite last_lookup in Hf. by apply Hl.
Qed.

Lemma builder_step_error_files_follow (os : Os) (p p' : Pager) (c : BuilderCall) :
  ids_are_positions (files p) → error_files_follow p →
  builder_step os p c = Ok p' → error_files_follow p'.
Proof.
  intros Hids Hf Hstep. destruct c; simpl in Hstep.
  - apply add_output_stream_Ok in Hstep as [_ ->].
    intros k e Hk. apply lookup_app_l_Some. by apply Hf.
  - apply add_error_stream_Ok in Hstep as [_ ->]. simpl.
    intros k e Hk. destruct (last (files p)) as [f|] eqn:Hl; simpl in Hk |- *.
    + pose proof (last_is_at_pred_length _ _ Hids Hl) as Hi.
      assert (Hlen : length (files p) ≠ 0)
        by (intros H0; apply nil_length_inv in H0; rewrite H0 in Hl; discriminate).
      apply lookup_insert_Some in Hk as [[<- <-] | [_ Hk]].
      * rewrite Hi. rewrite lookup_snoc_Some. right. split; [lia | done].
      * apply lookup_app_l_Some. by apply Hf.
    + apply lookup_app_l_Some. by apply Hf.
  - apply add_output_file_Ok in Hstep as [_ ->].
    intros k e Hk. apply lookup_app_l_Some. by apply Hf.
  - apply add_subprocess_Ok in Hstep as [_ ->]. simpl.
    intros k e Hk. simpl in Hk |- *.
    apply lookup_insert_Some in Hk as [[<- <-] | [_ Hk]].
    + rewrite lookup_snoc_Some. right. rewrite length_app. simpl. split; [lia | done].
    + do 2 apply lookup_app_l_Some. by apply Hf.
  - by injection Hstep as <-.
  - by injection Hstep as <-.
  - by injection Hstep as <-.
  - by injection Hstep as <-.
Qed.

Lemma builder_step_error_files_grow (os : Os) (p p' : Pager) (c : BuilderCall) :
  ids_are_positions (files p) → error_files_follow p →
  builder_step os p c = Ok p' → error_files p ⊆ error_files p'.
Proof.
  intros Hids Hf Hstep. destruct c; simpl in Hstep.
  - by apply add_output_stream_Ok in Hstep as [_ ->].
  - apply add_error_stream_Ok in Hstep as [_ ->]. simpl.
    destruct (last (files p)) as [f|] eqn:Hl; [|done].
    apply insert_subseteq.
    destruct (error_files p !! File_index f) as [e|] eqn:He; [|done].
    apply Hf in He. apply lookup_lt_Some in He.
    rewrite (last_is_at_pred_length _ _ Hids Hl) in He. lia.
  - by apply add_output_file_Ok in Hstep as [_ ->].
  - apply add_subprocess_Ok in Hstep as [_ ->]. simpl.
    apply insert_subseteq.
    destruct (error_files p !! length (files p)) as [e|] eqn:He; [|done].
    apply Hf in He. apply lookup_lt_Some in He. lia.
  - by injection Hstep as <-.
  - by injection Hstep as <-.
  - by injection Hstep as <-.
  - by injection Hstep as <-.
Qed.

Lemma build_error_files (os : Os) (cs : list BuilderCall) :
  ∀ p p', ids_are_positions (files p) → error_files_follow p →
  build os p cs = Ok p' →
  error_files_follow p' ∧ error_files p ⊆ error_files p'.
Proof.
  induction cs as [|c cs IH]; intros p p' Hids Hf Hb; simpl in Hb.
  - by injection Hb as <-.
  - destruct (builder_step os p c) as [q|e] eqn:Hs; [|discriminate].
    simpl in Hb.
    pose proof (proj1 (builder_step_files os p q c Hids Hs)) as Hidsq.
    pose proof (builder_step_error_files_follow os p q c Hids Hf Hs) as Hfq.
    pose proof (builder_step_error_files_grow os p q c Hids Hf Hs) as Hsub.
    destruct (IH q p' Hidsq Hfq Hb) as [Hf' Hsub']. split; [done|].
    by transitivity (error_files q).
Qed.

(** From a pager whose files have their positions as ids and whose
    error-file mapping is empty (as the constructors make it), after any
    chain of successful builder calls every error file recorded under key
    [k] is the very file displayed right after file [k]. *)
Theorem error_file_follows_its_output
    (os : Os) (p p' : Pager) (cs : list BuilderCall)
    (Hids : ids_are_positions (files p)) (Hempty : error_files p = ∅)
    (Hok : build os p cs = Ok p') :
  ∀ k e, error_files p' !! k = Some e → files p' !! S k = Some e.
Proof.
  apply (build_error_files os cs p p' Hids); [|done].
  intros k e. rewrite Hempty, lookup_empty. discriminate.
Qed.

(** Under the same start, builder calls never replace or remove an entry
    of the error-file mapping: each later mapping extends each earlier
    one. *)
Theorem error_files_only_grow
    (os : Os) (p q p' : Pager) (cs1 cs2 : list BuilderCall)
    (Hids : ids_are_positions (files p)) (Hempty : error_files p = ∅)
    (Hq : build os p cs1 = Ok q) (Hp' : build os q cs2 = Ok p') :
  error_files q ⊆ error_files p'.
Proof.
  assert (Hf : error_files_follow p).
  { intros k e. rewrite Hempty, lookup_empty. discriminate. }
  destruct (build_files os cs1 p q Hids Hq) as [Hidsq _].
  destruct (build_error_files os cs1 p q Hids Hf Hq) as [Hfq _].
  exact (proj2 (build_error_files os cs2 q p' Hidsq Hfq Hp')).
Qed.

Lemma error_file_follows_its_output_witness :
  ∃ p', build os_ok pager0
          [AddOutputStream s1 "out"; AddSubprocess "make" [] "build";
           AddErrorStream s2 "err"] = Ok p' ∧
  ∀ k e, error_files p' !! k = Some e → files p' !! S k = Some e.
Proof.
  eexists. split; [vm_compute; reflexivity|].
  apply (error_file_follows_its_output os_ok pager0 _
           [AddOutputStream s1 "out"; AddSubprocess "make" [] "build";
            AddErrorStream s2 "err"]).
  - intros k f H. cbv in H. discriminate.
  - reflexivity.
  - vm_compute. reflexivity.
Defined.

Lemma error_files_only_grow_witness :
  ∃ p', build os_ok pager_out_err
          [AddErrorStream s3 "err2"; AddSubprocess "make" [] "build"] = Ok p' ∧
  error_files pager_out_err ⊆ error_files p'.
Proof.
  eexists. split; [vm_compute; reflexivity|].
  apply (error_files_only_grow os_ok pager0 pager_out_err _
           [AddOutputStream s1 "out"; AddErrorStream s2 "err"]
           [AddErrorStream s3 "err2"; AddSubprocess "make" [] "build"]).
  - intros k f H. cbv in H. discriminate.
  - reflexivity.
  - vm_compute. reflexivity.
  - vm_compute. reflexivity.
Defined.

(** ** Construction *)


(** ** Capability negotiation *)

(** On unix, the capabilities [termcaps] returns always carry a terminfo
    database. *)
Theorem termcaps_unix_has_terminfo
    (env : TermEnv) (c : Capabilities)
    (Hunix : cfg_unix env = true) (Hok : termcaps env = Ok c) :
  terminfo_db c ≠ None.
Proof.
  unfold termcaps in Hok.
  destruct (Capabilities_new_with_hints env (termcaps_hints env)) as [c'|e];
    [|discriminate]. simpl in Hok.
  rewrite Hunix in Hok. simpl in Hok.
  destruct (terminfo_db c') eqn:Hdb; [|discriminate].
  injection Hok as <-. rewrite Hdb. discriminate.
Qed.

Lemma termcaps_unix_has_terminfo_witness :
  cfg_unix env_ok = true ∧ termcaps env_ok = Ok (mkCapabilities 0 (Some 7)) ∧
  terminfo_db (mkCapabilities 0 (Some 7)) ≠ None.
Proof.
  split; [reflexivity|]. split; [reflexivity|].
  apply (termcaps_unix_has_terminfo env_ok); reflexivity.
Defined.

(** Off unix, [termcaps] never fails for a missing terminfo database: it
    returns whatever termwiz's probe returns. *)
Theorem termcaps_not_unix
    (env : TermEnv) (Hnot : cfg_unix env = false) :
  termcaps env = Capabilities_new_with_hints env (termcaps_hints env).
Proof.
  unfold termcaps. rewrite Hnot.
  destruct (Capabilities_new_with_hints env (termcaps_hints env)); reflexivity.
Qed.

Lemma termcaps_not_unix_witness :
  cfg_unix (env_nounix) = false ∧
  termcaps env_nounix = Capabilities_new_with_hints env_nounix (termcaps_hints env_nounix).
Proof.
  split; [reflexivity|]. apply termcaps_not_unix. reflexivity.
Defined.

(** [termcaps] overrides the colour level and mouse reporting the
    environment asks for: two environments whose probe hints differ only
    there negotiate the same capabilities. *)
Theorem termcaps_overrides_color_and_mouse
    (env : TermEnv) (h1 h2 : ProbeHints)
    (Hterm : hints_term h1 = hints_term h2) :
  termcaps (with_probe_hints env h1) = termcaps (with_probe_hints env h2).
Proof.
  unfold termcaps, termcaps_hints, ProbeHints_mouse_reporting,
    ProbeHints_color_level. simpl. rewrite Hterm. reflexivity.
Qed.

Lemma termcaps_overrides_color_and_mouse_witness :
  hints_term (mkProbeHints (Some "xterm") (Some MonoChrome) (Some true)) =
  hints_term (mkProbeHints (Some "xterm") None None) ∧
  termcaps (with_probe_hints env_ok (mkProbeHints (Some "xterm") (Some MonoChrome) (Some true))) =
  termcaps (with_probe_hints env_ok (mkProbeHints (Some "xterm") None None)).
Proof.
  split; [reflexivity|]. apply termcaps_overrides_color_and_mouse. reflexivity.
Defined.

(** ** File counts and failures of the builder calls *)

Lemma builder_step_length (os : Os) (p p' : Pager) (c : BuilderCall) :
  builder_step os p c = Ok p' →
  length (files p') = length (files p) + files_added c.
Proof.
  intros Hstep. destruct c; simpl in Hstep |- *.
  - apply add_output_stream_Ok in Hstep as [_ ->]. simpl. rewrite length_app. done.
  - apply add_error_stream_Ok in Hstep as [_ ->]. simpl. rewrite length_app. done.
  - apply add_output_file_Ok in Hstep as [_ ->]. simpl. rewrite length_app. done.
  - apply add_subprocess_Ok in Hstep as [_ ->]. simpl.
    rewrite !length_app. simpl. lia.
  - injection Hstep as <-. simpl. lia.
  - injection Hstep as <-. simpl. lia.
  - injection Hstep as <-. simpl. lia.
  - injection Hstep as <-. simpl. lia.
Qed.

(** After a chain of successful builder calls the pager holds one more
    file per output stream, error stream and disk file added, two more per
    subprocess, and none more for the progress and configuration setters. *)
Theorem build_file_count
    (os : Os) (cs : list BuilderCall) (p p' : Pager)
    (Hok : build os p cs = Ok p') :
  length (files p') = length (files p) + sum_list_with files_added cs.
Proof.
  revert p Hok. induction cs as [|c cs IH]; intros p Hok; simpl in Hok |- *.
  - injection Hok as <-. lia.
  - destruct (builder_step os p c) as [q|e] eqn:Hs; [|discriminate].
    simpl in Hok. rewrite (IH q Hok), (builder_step_length os p q c Hs). lia.
Qed.

Lemma build_file_count_witness :
  ∃ p', build os_ok pager0
          [AddOutputStream s1 "out"; SetScrollPastEof true;
           AddSubprocess "make" [] "build"; AddErrorStream s2 "err"] = Ok p' ∧
  length (files p') = length (files pager0) +
    sum_list_with files_added
      [AddOutputStream s1 "out"; SetScrollPastEof true;
       AddSubprocess "make" [] "build"; AddErrorStream s2 "err"].
Proof.
  eexists. split; [vm_compute; reflexivity|].
  apply (build_file_count os_ok
           [AddOutputStream s1 "out"; SetScrollPastEof true;
            AddSubprocess "make" [] "build"; AddErrorStream s2 "err"] pager0).
  vm_compute. reflexivity.
Defined.

(** Each file-adding call fails exactly when the [File] constructor it
    calls fails, with that constructor's error: nothing else in the call
    can fail. *)
Theorem add_calls_fail_only_with_constructor
    (os : Os) (p : Pager) (s : Stream) (t n cmd : string)
    (args : list string) (e : Error) :
  (add_output_stream os p s t = Err e ↔
   File_new_streamed os (length (files p)) s t (sender (events p)) = Err e) ∧
  (add_error_stream os p s t = Err e ↔
   File_new_streamed os (length (files p)) s t (sender (events p)) = Err e) ∧
  (add_output_file os p n = Err e ↔
   File_new_file os (length (files p)) n (sender (events p)) = Err e) ∧
  (add_subprocess os p cmd args t = Err e ↔
   File_new_command os (length (files p)) cmd args t (sender (events p)) = Err e).
Proof.
  unfold add_output_stream, add_error_stream, add_output_file, add_subprocess, bind.
  split_and!.
  - destruct (File_new_streamed _ _ _ _ _); split; congruence.
  - destruct (File_new_streamed _ _ _ _ _); split; congruence.
  - destruct (File_new_file _ _ _ _); split; congruence.
  - destruct (File_new_command _ _ _ _ _ _) as [[o er]|]; split; congruence.
Qed.

(** A successful [add_output_stream] appends one file, whose id is the
    previous number of files, and leaves the error-file mapping, the
    progress handle and the configuration as they were. *)
Theorem add_output_stream_appends_one
    (os : Os) (p p' : Pager) (s : Stream) (t : string)
    (Hok : add_output_stream os p s t = Ok p') :
  ∃ f, files p' = files p ++ [f] ∧ File_index f = length (files p) ∧
       error_files p' = error_files p ∧ progress p' = progress p ∧
       config p' = config p.
Proof.
  apply add_output_stream_Ok in Hok as [_ ->].
  eexists; split_and!; reflexivity.
Qed.

Lemma add_output_stream_appends_one_witness :
  ∃ p', add_output_stream os_ok pager_out_err s3 "more" = Ok p' ∧
  ∃ f, files p' = files pager_out_err ++ [f] ∧
       File_index f = length (files pager_out_err) ∧
       error_files p' = error_files pager_out_err ∧
       progress p' = progress pager_out_err ∧ config p' = config pager_out_err.
Proof.
  eexists. split; [vm_compute; reflexivity|].
  apply (add_output_stream_appends_one os_ok pager_out_err _ s3 "more").
  vm_compute; reflexivity.
Defined.

(** A successful [add_output_file] appends one file, whose id is the
    previous number of files, and leaves the error-file mapping, the
    progress handle and the configuration as they were. *)
Theorem add_output_file_appends_one
    (os : Os) (p p' : Pager) (n : string)
    (Hok : add_output_file os p n = Ok p') :
  ∃ f, files p' = files p ++ [f] ∧ File_index f = length (files p) ∧
       error_files p' = error_files p ∧ progress p' = progress p ∧
       config p' = config p.
Proof.
  apply add_output_file_Ok in Hok as [_ ->].
  eexists; split_and!; reflexivity.
Qed.

Lemma add_output_file_appends_one_witness :
  ∃ p', add_output_file os_ok pager_out_err "notes.txt" = Ok p' ∧
  ∃ f, files p' = files pager_out_err ++ [f] ∧
       File_index f = length (files pager_out_err) ∧
       error_files p' = error_files pager_out_err ∧
       progress p' = progress pager_out_err ∧ config p' = config pager_out_err.
Proof.
  eexists. split; [vm_compute; reflexivity|].
  apply (add_output_file_appends_one os_ok pager_out_err _ "notes.txt").
  vm_compute; reflexivity.
Defined.
